(** * Shallow embedding of static/js/policy_tinymce_init.js

    The script registers one listener for the document's
    "DOMContentLoaded" event.  The listener checks
    [typeof tinymce === "undefined"] and, if the editor library is
    there, calls [tinymce.init] with a fresh object literal.

    The model has
    - JavaScript values as far as the guard and the call can observe them
      ([jsval]), with the [init] property of an object either missing,
      present but not callable, or a function whose own behaviour
      (return or throw) is left open;
    - a heap of plain objects (the configuration literal is allocated
      there and passed by reference), a log of the [init] calls made
      (what a recording stub would see) and a trace of the store effects;
    - a small state-and-exception monad in which the listener is written
      line by line;
    - the page: script load registers the listener, each dispatch of
      "DOMContentLoaded" runs it, and an exception thrown by a listener is
      reported by the browser and does not stop the page. *)

From Stdlib Require Import String ZArith List Bool Lia.
Import ListNotations.
Open Scope string_scope.
Open Scope list_scope.

(** ** Values and objects *)

(** Property values occurring in the configuration literal. *)
Inductive value : Type :=
| VStr (s : string)
| VNum (z : Z)
| VBool (b : bool).

(** A plain object: its own properties in creation order. *)
Definition obj : Type := list (string * value).

(** Heap addresses: the index of the object in the heap. *)
Definition loc : Type := nat.

(** Property read [o[k]]; [None] is [undefined]. *)
Fixpoint get_field (o : obj) (k : string) : option value :=
  match o with
  | [] => None
  | (k', v) :: o' => if String.eqb k k' then Some v else get_field o' k
  end.

(** Property write [o[k] = v]: replaces an own property or adds one at
    the end. *)
Fixpoint set_field (o : obj) (k : string) (v : value) : obj :=
  match o with
  | [] => [(k, v)]
  | (k', v') :: o' =>
      if String.eqb k k' then (k', v) :: o' else (k', v') :: set_field o' k v
  end.

(** What the library's own [init] does when called (outside this code). *)
Inductive init_behaviour : Type :=
| InitReturns
| InitThrows.

(** The [init] property of the global [tinymce]. *)
Inductive init_prop : Type :=
| InitAbsent                          (* property undefined *)
| InitNotCallable                     (* defined, not a function *)
| InitFunction (b : init_behaviour).  (* the library's entry point *)

(** Values the global [tinymce] can be bound to. *)
Inductive jsval : Type :=
| JUndefined
| JNull
| JBool (b : bool)
| JNum (z : Z)
| JStr (s : string)
| JObject (init : init_prop).

(** [typeof x] for a global binding; [None] is an undeclared global,
    for which [typeof] also yields "undefined" rather than throwing. *)
Definition typeof_global (g : option jsval) : string :=
  match g with
  | None | Some JUndefined => "undefined"
  | Some JNull => "object"
  | Some (JBool _) => "boolean"
  | Some (JNum _) => "number"
  | Some (JStr _) => "string"
  | Some (JObject _) => "object"
  end.

(** ** Program state and effects *)

Inductive error : Type :=
| TypeError
| ReferenceError
| LibraryError.

(** Store effects, in the order they happen. *)
Inductive action : Type :=
| AAlloc (l : loc)
| AWrite (l : loc) (k : string)
| ACallInit (l : loc).

Record state : Type := mkState {
  global_tinymce : option jsval;
  heap : list obj;
  init_calls : list loc;   (* arguments of every [tinymce.init] call *)
  trace : list action
}.

Inductive result (A : Type) : Type :=
| Ok (a : A) (s : state)
| Throw (e : error) (s : state).
Arguments Ok {A} a s.
Arguments Throw {A} e s.

Definition M (A : Type) : Type := state -> result A.

Definition ret {A} (a : A) : M A := fun s => Ok a s.

Definition bind {A B} (m : M A) (k : A -> M B) : M B :=
  fun s => match m s with
           | Ok a s' => k a s'
           | Throw e s' => Throw e s'
           end.

Notation "x <- m ;; k" := (bind m (fun x => k))
  (at level 61, m at next level, right associativity).

Definition final {A} (r : result A) : state :=
  match r with Ok _ s => s | Throw _ s => s end.

(** *** Primitive operations *)

(** [typeof tinymce] *)
Definition typeof_tinymce : M string :=
  fun s => Ok (typeof_global (global_tinymce s)) s.

(** The callee [tinymce.init]: reading a property of [null] or
    [undefined] throws a TypeError, of an undeclared name a
    ReferenceError; primitives have no [init] property. *)
Definition get_init : M init_prop :=
  fun s =>
    match global_tinymce s with
    | None => Throw ReferenceError s
    | Some JUndefined | Some JNull => Throw TypeError s
    | Some (JBool _) | Some (JNum _) | Some (JStr _) => Ok InitAbsent s
    | Some (JObject p) => Ok p s
    end.

(** Evaluating an object literal allocates a fresh object. *)
Definition alloc (o : obj) : M loc :=
  fun s =>
    let l := length (heap s) in
    Ok l (mkState (global_tinymce s) (heap s ++ [o]) (init_calls s)
                  (trace s ++ [AAlloc l])).

Fixpoint update_nth {A} (n : nat) (f : A -> A) (xs : list A) : list A :=
  match xs, n with
  | [], _ => []
  | x :: xs', O => f x :: xs'
  | x :: xs', S n' => x :: update_nth n' f xs'
  end.

(** Property assignment [l[k] = v] on a heap object. *)
Definition write_field (l : loc) (k : string) (v : value) : M unit :=
  fun s =>
    Ok tt (mkState (global_tinymce s)
                   (update_nth l (fun o => set_field o k v) (heap s))
                   (init_calls s) (trace s ++ [AWrite l k])).

(** Calling the callee with the object at [l]: a non-function throws a
    TypeError without a call; the library's function records the call
    and then returns or throws as it does. *)
Definition call_init (p : init_prop) (l : loc) : M unit :=
  fun s =>
    match p with
    | InitAbsent | InitNotCallable => Throw TypeError s
    | InitFunction b =>
        let s' := mkState (global_tinymce s) (heap s) (init_calls s ++ [l])
                          (trace s ++ [ACallInit l]) in
        match b with
        | InitReturns => Ok tt s'
        | InitThrows => Throw LibraryError s'
        end
    end.

(** ** The script *)

(** Lines 9-21: the configuration object literal. *)
Definition policy_config : obj :=
  [ ("selector", VStr "textarea.tinymce-policy");
    ("menubar", VStr "file edit view insert format tools table help");
    ("plugins", VStr "advlist autolink lists link charmap searchreplace visualblocks visualchars fullscreen table code wordcount");
    ("toolbar", VStr "undo redo | blocks | bold italic underline | alignleft aligncenter alignright alignjustify | bullist numlist outdent indent | link table | removeformat | fullscreen code");
    ("toolbar_mode", VStr "sliding");
    ("height", VNum 420);
    ("branding", VBool false);
    ("convert_urls", VBool false) ].

(** Lines 4-22: the listener.  JavaScript evaluates the callee
    [tinymce.init] first, then the argument, then checks that the
    callee is callable. *)
Definition handler : M unit :=
  t <- typeof_tinymce ;;
  if String.eqb t "undefined" then ret tt else
  f <- get_init ;;
  l <- alloc policy_config ;;
  call_init f l.

(** ** The page *)

Inductive event : Type :=
| ScriptLoad          (* line 4 runs: the listener is registered *)
| DOMContentLoaded.   (* the event is dispatched *)

Record page : Type := mkPage {
  pst : state;
  registered : bool
}.

(** A dispatch runs the listener; its exception is reported by the
    browser, the effects made before it stay. *)
Definition run_listener (s : state) : state := final (handler s).

Definition step (p : page) (e : event) : page :=
  match e with
  | ScriptLoad => mkPage (pst p) true
  | DOMContentLoaded =>
      if registered p then mkPage (run_listener (pst p)) true else p
  end.

Definition run_events (p : page) (es : list event) : page :=
  fold_left step es p.

Definition initial_page (g : option jsval) : page :=
  mkPage (mkState g [] [] []) false.

(** The page is in the Initialized state once [tinymce.init] was called. *)
Definition initialized (p : page) : Prop := init_calls (pst p) <> [].

(** The objects a state passed to [tinymce.init], in call order. *)
Definition passed_configs (s : state) : list (option obj) :=
  map (fun l => nth_error (heap s) l) (init_calls s).

(** An unusable binding: [typeof] is not "undefined" but [tinymce.init]
    is not a function. *)
Definition unusable_binding (g : option jsval) : bool :=
  match g with
  | Some JNull | Some (JBool _) | Some (JNum _) | Some (JStr _)
  | Some (JObject InitAbsent) | Some (JObject InitNotCallable) => true
  | _ => false
  end.

(** ** Lemmas on the listener *)

(** State after the argument has been allocated. *)
Definition after_alloc (s : state) : state :=
  mkState (global_tinymce s) (heap s ++ [policy_config]) (init_calls s)
          (trace s ++ [AAlloc (length (heap s))]).

(** State after the library's [init] has been called. *)
Definition after_call (s : state) : state :=
  mkState (global_tinymce s) (heap s ++ [policy_config])
          (init_calls s ++ [length (heap s)])
          (trace s ++ [AAlloc (length (heap s)); ACallInit (length (heap s))]).

Lemma handler_undefined (s : state) :
  typeof_global (global_tinymce s) = "undefined" -> handler s = Ok tt s.
Proof.
  intro H. unfold handler, bind, typeof_tinymce. rewrite H. reflexivity.
Qed.

Lemma handler_library (s : state) (b : init_behaviour) :
  global_tinymce s = Some (JObject (InitFunction b)) ->
  handler s = match b with
              | InitReturns => Ok tt (after_call s)
              | InitThrows => Throw LibraryError (after_call s)
              end.
Proof.
  intro H. unfold handler, bind, typeof_tinymce, get_init, alloc, call_init.
  rewrite H. simpl. rewrite H. unfold after_call.
  destruct b; simpl; rewrite <- app_assoc; reflexivity.
Qed.

Lemma final_handler_library (s : state) (b : init_behaviour) :
  global_tinymce s = Some (JObject (InitFunction b)) ->
  final (handler s) = after_call s.
Proof.
  intro H. rewrite (handler_library s b H). destruct b; reflexivity.
Qed.

Lemma handler_unusable (s : state) :
  unusable_binding (global_tinymce s) = true ->
  typeof_global (global_tinymce s) <> "undefined" /\
  (handler s = Throw TypeError s \/ handler s = Throw TypeError (after_alloc s)).
Proof.
  destruct (global_tinymce s) as [[| | | | |[| |]]|] eqn:G; simpl;
    try discriminate; intros _; split; try discriminate;
    unfold handler, bind, typeof_tinymce, get_init, alloc, call_init,
      after_alloc; repeat (rewrite G; simpl); auto.
Qed.

(** Every run of the listener ends in one of three states. *)
Lemma handler_cases (s : state) :
  final (handler s) = s
  \/ final (handler s) = after_alloc s
  \/ (exists b, global_tinymce s = Some (JObject (InitFunction b))
               /\ final (handler s) = after_call s).
Proof.
  destruct (global_tinymce s) as [g|] eqn:G.
  - destruct g as [| | | | |[| |b]];
      try (left; rewrite handler_undefined; rewrite ?G; reflexivity);
      try (right; right; exists b; split; [reflexivity|];
           apply final_handler_library with b; exact G);
      unfold handler, bind, typeof_tinymce, get_init, alloc, call_init,
        after_alloc; repeat (rewrite G; simpl);
      first [left; reflexivity | right; left; reflexivity].
  - left. rewrite handler_undefined; rewrite ?G; reflexivity.
Qed.

Lemma handler_global (s : state) :
  global_tinymce (final (handler s)) = global_tinymce s.
Proof.
  destruct (handler_cases s) as [H|[H|[b [_ H]]]]; rewrite H; reflexivity.
Qed.

(** The listener only appends to the call log, and only when [init] is
    the library's function. *)
Lemma handler_calls (s : state) :
  init_calls (final (handler s)) = init_calls s
  \/ (exists b, global_tinymce s = Some (JObject (InitFunction b))
               /\ init_calls (final (handler s))
                  = init_calls s ++ [length (heap s)]).
Proof.
  destruct (handler_cases s) as [H|[H|[b [G H]]]]; rewrite H; auto.
  right. exists b. split; [exact G | reflexivity].
Qed.

Lemma step_global (p : page) (e : event) :
  global_tinymce (pst (step p e)) = global_tinymce (pst p).
Proof.
  destruct e; simpl; [reflexivity|].
  destruct (registered p); simpl; [apply handler_global | reflexivity].
Qed.

Lemma step_dispatch_library (p : page) (b : init_behaviour) :
  registered p = true ->
  global_tinymce (pst p) = Some (JObject (InitFunction b)) ->
  step p DOMContentLoaded = mkPage (after_call (pst p)) true.
Proof.
  intros R G. simpl. rewrite R. unfold run_listener.
  rewrite (final_handler_library _ b G). reflexivity.
Qed.

Lemma run_events_cons (p : page) (e : event) (es : list event) :
  run_events p (e :: es) = run_events (step p e) es.
Proof. reflexivity. Qed.

Lemma run_events_no_dispatch (es : list event) (p : page) :
  ~ In DOMContentLoaded es ->
  init_calls (pst (run_events p es)) = init_calls (pst p).
Proof.
  revert p. induction es as [|e es IH]; intros p N; [reflexivity|].
  rewrite run_events_cons, IH.
  - destruct e; [reflexivity|]. exfalso. apply N. left. reflexivity.
  - intro I. apply N. right. exact I.
Qed.

(** ** Branding and URL conversion flags of the objects passed *)

Definition config_flags_ok (h : list obj) (l : loc) : Prop :=
  exists o, nth_error h l = Some o
            /\ get_field o "branding" = Some (VBool false)
            /\ get_field o "convert_urls" = Some (VBool false).

Definition flags_inv (s : state) : Prop :=
  Forall (config_flags_ok (heap s)) (init_calls s).

Lemma config_flags_ok_app (h t : list obj) (l : loc) :
  config_flags_ok h l -> config_flags_ok (h ++ t) l.
Proof.
  intros [o [N F]]. exists o. split; [|exact F].
  rewrite nth_error_app1; [exact N|].
  apply nth_error_Some. rewrite N. discriminate.
Qed.

Lemma flags_inv_handler (s : state) :
  flags_inv s -> flags_inv (final (handler s)).
Proof.
  unfold flags_inv. intro I.
  destruct (handler_cases s) as [H|[H|[b [_ H]]]]; rewrite H; [exact I| |].
  - unfold after_alloc; simpl.
    eapply Forall_impl; [|exact I]. intros l. apply config_flags_ok_app.
  - unfold after_call; simpl. apply Forall_app. split.
    + eapply Forall_impl; [|exact I]. intros l. apply config_flags_ok_app.
    + constructor; [|constructor]. exists policy_config.
      rewrite nth_error_app2, Nat.sub_diag by lia. simpl.
      split; [reflexivity | split; reflexivity].
Qed.

(** The object handed to the last [init] call. *)
Definition last_passed (s : state) : option obj :=
  match rev (init_calls s) with
  | l :: _ => nth_error (heap s) l
  | [] => None
  end.

(** A page where the library is a stub that records its calls. *)
Definition stub_state : state :=
  mkState (Some (JObject (InitFunction InitReturns))) [] [] [].

(** ** Concrete runs *)

Example stub_state_one_call :
  init_calls (final (handler stub_state)) = [0]
  /\ last_passed (final (handler stub_state)) = Some policy_config.
Proof. split; reflexivity. Qed.

Example null_binding_throws :
  handler (mkState (Some JNull) [] [] []) = Throw TypeError (mkState (Some JNull) [] [] []).
Proof. reflexivity. Qed.

Example undeclared_binding_nothing :
  handler (mkState None [] [] []) = Ok tt (mkState None [] [] []).
Proof. reflexivity. Qed.

(** ** Claims *)

(** C1: with [tinymce] bound to the library (or a stub recording its
    calls), one run of the listener calls [tinymce.init] exactly once,
    with an object whose [selector] is "textarea.tinymce-policy", whose
    [height] is 420 and whose [plugins] string is the feature-module
    list. *)
Theorem library_present_init_called_once (s : state) (b : init_behaviour) :
  global_tinymce s = Some (JObject (InitFunction b)) ->
  length (init_calls (final (handler s))) = S (length (init_calls s))
  /\ exists l o,
       init_calls (final (handler s)) = init_calls s ++ [l]
       /\ nth_error (heap (final (handler s))) l = Some o
       /\ get_field o "selector" = Some (VStr "textarea.tinymce-policy")
       /\ get_field o "height" = Some (VNum 420)
       /\ get_field o "plugins"
          = Some (VStr "advlist autolink lists link charmap searchreplace visualblocks visualchars fullscreen table code wordcount").
Proof.
  intro G. rewrite (final_handler_library s b G). unfold after_call; simpl.
  split.
  - rewrite length_app. simpl. lia.
  - exists (length (heap s)), policy_config.
    split; [reflexivity|].
    split; [rewrite nth_error_app2, Nat.sub_diag by lia; reflexivity|].
    repeat split.
Qed.

Lemma library_present_init_called_once_witness :
  global_tinymce stub_state = Some (JObject (InitFunction InitReturns))
  /\ length (init_calls (final (handler stub_state)))
     = S (length (init_calls stub_state))
  /\ exists l o,
       init_calls (final (handler stub_state)) = init_calls stub_state ++ [l]
       /\ nth_error (heap (final (handler stub_state))) l = Some o
       /\ get_field o "selector" = Some (VStr "textarea.tinymce-policy")
       /\ get_field o "height" = Some (VNum 420)
       /\ get_field o "plugins"
          = Some (VStr "advlist autolink lists link charmap searchreplace visualblocks visualchars fullscreen table code wordcount").
Proof.
  split; [reflexivity|].
  apply (library_present_init_called_once stub_state InitReturns).
  reflexivity.
Defined.

(** C2: when [typeof tinymce] is "undefined" the listener returns
    normally and leaves the state as it was: no call to [init], no
    allocation, no effect in the trace. *)
Theorem library_absent_no_effect (s : state) :
  typeof_global (global_tinymce s) = "undefined" ->
  handler s = Ok tt s /\ init_calls (final (handler s)) = init_calls s.
Proof.
  intro U. rewrite (handler_undefined s U). split; reflexivity.
Qed.

Lemma library_absent_no_effect_witness :
  typeof_global (global_tinymce (mkState None [] [] [])) = "undefined"
  /\ handler (mkState None [] [] []) = Ok tt (mkState None [] [] [])
  /\ init_calls (final (handler (mkState None [] [] []))) = [].
Proof.
  split; [reflexivity|].
  apply (library_absent_no_effect (mkState None [] [] [])). reflexivity.
Defined.

(** C3: when [typeof tinymce] is "undefined" the listener terminates
    normally; no exception escapes it. *)
Theorem library_absent_no_exception (s : state) :
  typeof_global (global_tinymce s) = "undefined" ->
  (exists s', handler s = Ok tt s') /\ (forall e s', handler s <> Throw e s').
Proof.
  intro U. rewrite (handler_undefined s U). split.
  - exists s. reflexivity.
  - intros e s' H. discriminate H.
Qed.

Lemma library_absent_no_exception_witness :
  typeof_global (global_tinymce (mkState (Some JUndefined) [] [] [])) = "undefined"
  /\ (exists s', handler (mkState (Some JUndefined) [] [] []) = Ok tt s')
  /\ (forall e s', handler (mkState (Some JUndefined) [] [] []) <> Throw e s').
Proof.
  split; [reflexivity|].
  apply (library_absent_no_exception (mkState (Some JUndefined) [] [] [])).
  reflexivity.
Defined.

(** The stub page after the script has run. *)
Definition stub_page : page := mkPage stub_state true.

(** C4: with the listener registered and the library present, [n]
    dispatches of "DOMContentLoaded" make exactly [n] calls to
    [tinymce.init]; nothing deduplicates them. *)
Theorem dispatch_n_times_n_calls (n : nat) (p : page) (b : init_behaviour) :
  registered p = true ->
  global_tinymce (pst p) = Some (JObject (InitFunction b)) ->
  length (init_calls (pst (run_events p (repeat DOMContentLoaded n))))
  = length (init_calls (pst p)) + n.
Proof.
  revert p. induction n as [|n IH]; intros p R G; [simpl; lia|].
  simpl repeat. rewrite run_events_cons.
  rewrite (step_dispatch_library p b R G).
  rewrite IH by (simpl; first [reflexivity | exact G]).
  unfold after_call; simpl. rewrite length_app. simpl. lia.
Qed.

Lemma dispatch_n_times_n_calls_witness :
  registered stub_page = true
  /\ global_tinymce (pst stub_page) = Some (JObject (InitFunction InitReturns))
  /\ length (init_calls (pst (run_events stub_page (repeat DOMContentLoaded 2))))
     = length (init_calls (pst stub_page)) + 2.
Proof.
  split; [reflexivity|]. split; [reflexivity|].
  apply (dispatch_n_times_n_calls 2 stub_page InitReturns); reflexivity.
Defined.

(** C5 (as stated, refuted): a page whose "DOMContentLoaded" is
    dispatched twice gets two calls to [tinymce.init], not at most one. *)
Lemma init_not_at_most_once_per_page :
  ~ (length (init_calls (pst (run_events
        (initial_page (Some (JObject (InitFunction InitReturns))))
        [ScriptLoad; DOMContentLoaded; DOMContentLoaded]))) <= 1).
Proof. vm_compute. lia. Qed.

(** C5 (amended): each dispatch of "DOMContentLoaded", with the listener
    registered and the library present, makes exactly one call to
    [tinymce.init], with the configuration object of lines 9-21; a page
    where the event is dispatched once gets exactly one call. *)
Theorem each_dispatch_one_init_call (p : page) (b : init_behaviour) :
  registered p = true ->
  global_tinymce (pst p) = Some (JObject (InitFunction b)) ->
  init_calls (pst (step p DOMContentLoaded))
  = init_calls (pst p) ++ [length (heap (pst p))]
  /\ nth_error (heap (pst (step p DOMContentLoaded))) (length (heap (pst p)))
     = Some policy_config
  /\ length (init_calls (pst (run_events
        (initial_page (global_tinymce (pst p))) [ScriptLoad; DOMContentLoaded])))
     = 1.
Proof.
  intros R G. rewrite (step_dispatch_library p b R G).
  unfold after_call; simpl. split; [reflexivity|]. split.
  - rewrite nth_error_app2, Nat.sub_diag by lia. reflexivity.
  - unfold run_events; simpl. unfold run_listener.
    rewrite (final_handler_library _ b) by (simpl; exact G). reflexivity.
Qed.

Lemma each_dispatch_one_init_call_witness :
  registered stub_page = true
  /\ global_tinymce (pst stub_page) = Some (JObject (InitFunction InitReturns))
  /\ init_calls (pst (step stub_page DOMContentLoaded)) = [0]
  /\ nth_error (heap (pst (step stub_page DOMContentLoaded))) 0
     = Some policy_config
  /\ length (init_calls (pst (run_events
        (initial_page (global_tinymce (pst stub_page)))
        [ScriptLoad; DOMContentLoaded]))) = 1.
Proof.
  split; [reflexivity|]. split; [reflexivity|].
  apply (each_dispatch_one_init_call stub_page InitReturns); reflexivity.
Defined.

(** C6: any two runs of the listener with the library present hand
    [tinymce.init] objects with the same fields, namely the literal of
    lines 9-21. *)
Theorem config_same_every_run (s1 s2 : state) (b1 b2 : init_behaviour) :
  global_tinymce s1 = Some (JObject (InitFunction b1)) ->
  global_tinymce s2 = Some (JObject (InitFunction b2)) ->
  last_passed (final (handler s1)) = last_passed (final (handler s2))
  /\ last_passed (final (handler s1)) = Some policy_config.
Proof.
  intros G1 G2.
  assert (E : forall s b, global_tinymce s = Some (JObject (InitFunction b)) ->
                          last_passed (final (handler s)) = Some policy_config).
  { intros s b G. rewrite (final_handler_library s b G).
    unfold last_passed, after_call; simpl. rewrite rev_app_distr. simpl.
    rewrite nth_error_app2, Nat.sub_diag by lia. reflexivity. }
  rewrite (E s1 b1 G1), (E s2 b2 G2). split; reflexivity.
Qed.

Lemma config_same_every_run_witness :
  global_tinymce stub_state = Some (JObject (InitFunction InitReturns))
  /\ global_tinymce (after_call stub_state)
     = Some (JObject (InitFunction InitReturns))
  /\ last_passed (final (handler stub_state))
     = last_passed (final (handler (after_call stub_state)))
  /\ last_passed (final (handler stub_state)) = Some policy_config.
Proof.
  split; [reflexivity|]. split; [reflexivity|].
  apply (config_same_every_run stub_state (after_call stub_state)
           InitReturns InitReturns); reflexivity.
Defined.

(** C7: the configuration object is allocated once from the literal and
    never written by the listener: whatever [tinymce] is bound to, the
    effects the listener adds to the trace contain no property write, the
    objects already on the heap are kept, and when [init] is the
    library's function the listener allocates the literal and hands that
    object, with every field as written, to the call. *)
Theorem config_never_written (s : state) :
  (exists t h, trace (final (handler s)) = trace s ++ t
               /\ heap (final (handler s)) = heap s ++ h
               /\ forall l k, ~ In (AWrite l k) t)
  /\ (forall b, global_tinymce s = Some (JObject (InitFunction b)) ->
        trace (final (handler s))
        = trace s ++ [AAlloc (length (heap s)); ACallInit (length (heap s))]
        /\ nth_error (heap (final (handler s))) (length (heap s))
           = Some policy_config).
Proof.
  split.
  - destruct (handler_cases s) as [H|[H|[b [_ H]]]]; rewrite H.
    + exists [], []. rewrite !app_nil_r. split; [reflexivity|].
      split; [reflexivity|]. intros l k I. destruct I.
    + exists [AAlloc (length (heap s))], [policy_config].
      split; [reflexivity|]. split; [reflexivity|].
      intros l k [I|I]; [discriminate I | destruct I].
    + exists [AAlloc (length (heap s)); ACallInit (length (heap s))],
        [policy_config].
      split; [reflexivity|]. split; [reflexivity|].
      intros l k [I|[I|I]]; [discriminate I | discriminate I | destruct I].
  - intros b G. rewrite (final_handler_library s b G). unfold after_call; simpl.
    split; [reflexivity|].
    rewrite nth_error_app2, Nat.sub_diag by lia. reflexivity.
Qed.

Lemma config_never_written_witness :
  global_tinymce stub_state = Some (JObject (InitFunction InitReturns))
  /\ trace (final (handler stub_state)) = [AAlloc 0; ACallInit 0]
  /\ nth_error (heap (final (handler stub_state))) 0 = Some policy_config.
Proof.
  split; [reflexivity|].
  apply (proj2 (config_never_written stub_state) InitReturns). reflexivity.
Defined.

(** C8: the page moves from Not Initialized (no [init] call yet) to
    Initialized only on a dispatch of "DOMContentLoaded" with the
    listener registered and the library present; Initialized is never
    left; a page with no dispatch is not Initialized; and a dispatch with
    the library present does initialize it. *)
Theorem init_state_machine :
  (forall p e, initialized p -> initialized (step p e))
  /\ (forall p e, ~ initialized p -> initialized (step p e) ->
        e = DOMContentLoaded /\ registered p = true
        /\ exists b, global_tinymce (pst p) = Some (JObject (InitFunction b)))
  /\ (forall g es, ~ In DOMContentLoaded es ->
        ~ initialized (run_events (initial_page g) es))
  /\ (forall p b, registered p = true ->
        global_tinymce (pst p) = Some (JObject (InitFunction b)) ->
        initialized (step p DOMContentLoaded)).
Proof.
  unfold initialized. split; [|split; [|split]].
  - intros p e I. destruct e; simpl; [exact I|].
    destruct (registered p); simpl; [|exact I].
    unfold run_listener.
    destruct (handler_calls (pst p)) as [H|[b [_ H]]]; rewrite H; [exact I|].
    intro E. destruct (init_calls (pst p)); discriminate E.
  - intros p e N I. destruct e; simpl in I; [contradiction|].
    destruct (registered p) eqn:R; simpl in I; [|contradiction].
    unfold run_listener in I.
    destruct (handler_calls (pst p)) as [H|[b [G H]]];
      [rewrite H in I; contradiction|].
    split; [reflexivity|]. split; [reflexivity|]. exists b. exact G.
  - intros g es N. rewrite run_events_no_dispatch by exact N.
    simpl. intro E. apply E. reflexivity.
  - intros p b R G. rewrite (step_dispatch_library p b R G).
    unfold after_call; simpl. intro E.
    destruct (init_calls (pst p)); discriminate E.
Qed.

Lemma init_state_machine_witness :
  ~ initialized (run_events (initial_page (pst stub_page).(global_tinymce))
                   [ScriptLoad])
  /\ initialized (step stub_page DOMContentLoaded).
Proof.
  split.
  - apply (proj1 (proj2 (proj2 init_state_machine))).
    intros [E|[]]. discriminate E.
  - apply (proj2 (proj2 (proj2 init_state_machine)) stub_page InitReturns);
      reflexivity.
Defined.

(** C9: [typeof tinymce] only tells whether the name is bound; when it is
    bound to [null], a primitive, or an object whose [init] is not a
    function, the listener passes the guard, no [init] call happens and
    the TypeError is thrown out of the listener. *)
Theorem unusable_binding_throws (s : state) :
  unusable_binding (global_tinymce s) = true ->
  typeof_global (global_tinymce s) <> "undefined"
  /\ exists s', handler s = Throw TypeError s' /\ init_calls s' = init_calls s.
Proof.
  intro U. destruct (handler_unusable s U) as [T [H|H]].
  - split; [exact T|]. exists s. split; [exact H | reflexivity].
  - split; [exact T|]. exists (after_alloc s). split; [exact H | reflexivity].
Qed.

Lemma unusable_binding_throws_witness :
  unusable_binding (global_tinymce (mkState (Some JNull) [] [] [])) = true
  /\ typeof_global (global_tinymce (mkState (Some JNull) [] [] [])) <> "undefined"
  /\ exists s', handler (mkState (Some JNull) [] [] []) = Throw TypeError s'
                /\ init_calls s' = [].
Proof.
  split; [reflexivity|].
  apply (unusable_binding_throws (mkState (Some JNull) [] [] [])). reflexivity.
Defined.

(** C10: every object ever passed to [tinymce.init] has [branding] and
    [convert_urls] equal to [false]: the property holds on the initial
    page and is kept by every event. *)
Theorem passed_configs_flags_false (p : page) (es : list event) :
  flags_inv (pst p) -> flags_inv (pst (run_events p es)).
Proof.
  revert p. induction es as [|e es IH]; intros p I; [exact I|].
  rewrite run_events_cons. apply IH.
  destruct e; simpl; [exact I|].
  destruct (registered p); simpl; [|exact I].
  apply flags_inv_handler. exact I.
Qed.

Lemma passed_configs_flags_false_witness :
  flags_inv (pst stub_page)
  /\ flags_inv (pst (run_events stub_page [DOMContentLoaded; DOMContentLoaded])).
Proof.
  split; [constructor|].
  apply (passed_configs_flags_false stub_page). constructor.
Defined.

(** ** Further properties of the script *)

(** The listener has no [try]: when the library's [init] throws, the
    call has been made once with the literal and the error leaves the
    listener. *)
Theorem library_error_escapes (s : state) :
  global_tinymce s = Some (JObject (InitFunction InitThrows)) ->
  exists s', handler s = Throw LibraryError s'
             /\ init_calls s' = init_calls s ++ [length (heap s)]
             /\ nth_error (heap s') (length (heap s)) = Some policy_config.
Proof.
  intro G. rewrite (handler_library s InitThrows G).
  exists (after_call s). unfold after_call; simpl. split; [reflexivity|].
  split; [reflexivity|]. rewrite nth_error_app2, Nat.sub_diag by lia.
  reflexivity.
Qed.

Lemma library_error_escapes_witness :
  global_tinymce (mkState (Some (JObject (InitFunction InitThrows))) [] [] [])
  = Some (JObject (InitFunction InitThrows))
  /\ exists s', handler (mkState (Some (JObject (InitFunction InitThrows))) [] [] [])
                = Throw LibraryError s'
                /\ init_calls s' = [0]
                /\ nth_error (heap s') 0 = Some policy_config.
Proof.
  split; [reflexivity|].
  apply (library_error_escapes
           (mkState (Some (JObject (InitFunction InitThrows))) [] [] [])).
  reflexivity.
Defined.

(** The listener only reacts to dispatches after line 4 has run: when
    "DOMContentLoaded" has already been dispatched before the script
    loads, and is not dispatched again, [tinymce.init] is never called,
    whatever [tinymce] is. *)
Theorem late_script_never_initializes (g : option jsval) (n : nat) :
  init_calls (pst (run_events (initial_page g)
                     (repeat DOMContentLoaded n ++ [ScriptLoad]))) = [].
Proof.
  unfold run_events. rewrite fold_left_app.
  assert (E : forall k, fold_left step (repeat DOMContentLoaded k) (initial_page g)
                        = initial_page g).
  { induction k as [|k IH]; [reflexivity|]. simpl. exact IH. }
  rewrite E. reflexivity.
Qed.

(** Over any sequence of events the script never rebinds the global
    [tinymce], never changes or drops an object already on the heap, and
    only adds calls to the log. *)
Theorem script_frame (p : page) (es : list event) :
  global_tinymce (pst (run_events p es)) = global_tinymce (pst p)
  /\ (exists h, heap (pst (run_events p es)) = heap (pst p) ++ h)
  /\ (exists c, init_calls (pst (run_events p es)) = init_calls (pst p) ++ c).
Proof.
  revert p. induction es as [|e es IH]; intro p.
  - split; [reflexivity|]. split; exists []; rewrite app_nil_r; reflexivity.
  - rewrite run_events_cons.
    destruct (IH (step p e)) as [G [[h H] [c C]]].
    rewrite G, H, C, step_global.
    assert (F : (exists h', heap (pst (step p e)) = heap (pst p) ++ h')
                /\ exists c', init_calls (pst (step p e)) = init_calls (pst p) ++ c').
    { destruct e; simpl.
      - split; exists []; rewrite app_nil_r; reflexivity.
      - destruct (registered p); simpl;
          [|split; exists []; rewrite app_nil_r; reflexivity].
        unfold run_listener.
        destruct (handler_cases (pst p)) as [X|[X|[b [_ X]]]]; rewrite X.
        + split; exists []; rewrite app_nil_r; reflexivity.
        + split; [exists [policy_config] | exists []];
            [reflexivity | rewrite app_nil_r; reflexivity].
        + split; [exists [policy_config] | exists [length (heap (pst p))]];
            reflexivity. }
    destruct F as [[h' H'] [c' C']]. rewrite H', C'.
    split; [reflexivity|]. split.
    + exists (h' ++ h). rewrite app_assoc. reflexivity.
    + exists (c' ++ c). rewrite app_assoc. reflexivity.
Qed.
